(** * secure-api: the request-instrumentation middleware of [apps/api/app.py]

    A shallow embedding of the FastAPI service and of the properties its
    specification states about it.  Python exceptions are an explicit
    result type, the process-wide metrics and the monotonic clock are an
    explicit [World] threaded through every effectful function, and the
    dictionary-like objects of the source ([request.scope], the label
    series of the two Prometheus metrics) are finite maps.

    Two views of a request are kept.  [Request] is a request whose URL
    Starlette could rebuild, described by the path of that URL; the
    properties of the recording step are stated on it.  [Wire.Inbound] is
    the request as the server hands it over, where rebuilding the URL can
    fail and the route is written into the scope only during dispatch;
    the properties of the label derivation are stated on it. *)

From Stdlib Require Import Ascii QArith.
From stdpp Require Import base option list strings gmap pretty.

Open Scope string_scope.

(** ** Exceptions *)

(** Exceptions that are instances of Python's [Exception], the class the
    two [except Exception] clauses of the source catch. *)
Inductive exception : Type :=
  | AttributeError (msg : string)
  | UnboundLocalError (msg : string)
  | ValueError (msg : string)
  | RuntimeError (msg : string)
  | OSError (msg : string).

(** Everything a [raise] can carry.  [CancelledError], [KeyboardInterrupt]
    and [SystemExit] derive from [BaseException] only, so a clause
    [except Exception] lets them through. *)
Inductive raised : Type :=
  | Exc (e : exception)
  | CancelledError
  | KeyboardInterrupt
  | SystemExit.

Inductive result (A : Type) : Type :=
  | Ok (a : A)
  | Raise (r : raised).
Arguments Ok {A} a.
Arguments Raise {A} r.

(** [try: body / except Exception: handler] on pure computations. *)
Definition try_except {A} (body : result A) (handler : exception → result A)
  : result A :=
  match body with
  | Ok a => Ok a
  | Raise (Exc e) => handler e
  | Raise r => Raise r
  end.

(** ** Requests *)

(** The values [request.scope] can hold under the key ["route"]: a routing
    object, which has a [path] attribute holding its template, or anything
    else ([None], an endpoint function, ...), which has not. *)
Inductive pyobj : Type :=
  | PyNone
  | PyRoute (path : string)
  | PyOpaque (repr : string).

(** Attribute access [o.path]. *)
Definition getattr_path (o : pyobj) : result string :=
  match o with
  | PyRoute p => Ok p
  | PyNone => Raise (Exc (AttributeError "'NoneType' object has no attribute 'path'"))
  | PyOpaque _ => Raise (Exc (AttributeError "object has no attribute 'path'"))
  end.

(** An inbound HTTP request as the middleware sees it once
    [request.url.path] has been evaluated: the verb, the value of
    [request.url.path], and the ASGI scope dictionary.  The requests on
    which evaluating [request.url.path] raises, or gives a path other
    than the one asked for, are those of [Wire.Inbound] below. *)
Record Request : Type := {
  req_method : string;
  url_path : string;
  scope : gmap string pyobj
}.

(** [dict.get(key)]: the value, or [None] when the key is absent. *)
Definition dict_get (d : gmap string pyobj) (key : string) : pyobj :=
  default PyNone (d !! key).

(** [route_label_from_request], lines 85-94:
<<
    try:
        return request.scope.get("route").path
    except Exception:
        return request.url.path
>> *)
Definition route_label_from_request (request : Request) : result string :=
  try_except
    (getattr_path (dict_get (scope request) "route"))
    (λ _, Ok (url_path request)).

(** ** Responses *)

(** The JSON documents of this service are flat objects of strings. *)
Definition json_dict : Type := list (string * string).

Inductive Body : Type :=
  | JsonBody (content : json_dict)
  | RawBody (content : string).

Record Response : Type := {
  status_code : Z;
  body : Body;
  media_type : string
}.

Definition JSONResponse (content : json_dict) (code : Z) : Response :=
  {| status_code := code; body := JsonBody content;
     media_type := "application/json" |}.

Definition HTTP_500_INTERNAL_SERVER_ERROR : Z := 500.

(** ** The metric registry

    [prometheus_client] is an external library.  Its two metric families
    are modelled after section 4.2 of the specification: a counter keyed
    by (route, method, code) and a histogram keyed by (route, method),
    each series created on first use. *)

Record HistogramSeries : Type := {
  h_buckets : list nat;
  h_count : nat;
  h_sum : Q
}.

(** Upper bounds of the finite buckets (the library's defaults; the
    source leaves [buckets] unset).  The [+Inf] bucket is [h_count]. *)
Definition DEFAULT_BUCKETS : list Q :=
  [0.005; 0.01; 0.025; 0.05; 0.075; 0.1; 0.25; 0.5; 0.75; 1; 2.5; 5; 7.5; 10]%Q.

Definition empty_series : HistogramSeries :=
  {| h_buckets := replicate (length DEFAULT_BUCKETS) 0%nat;
     h_count := 0; h_sum := 0%Q |}.

(** Every bucket whose upper bound is at least [d] goes up by one. *)
Fixpoint bump_buckets (bounds : list Q) (counts : list nat) (d : Q) : list nat :=
  match bounds, counts with
  | b :: bounds', c :: counts' =>
      (if Qle_bool d b then S c else c) :: bump_buckets bounds' counts' d
  | _, _ => counts
  end.

Definition observe_series (d : Q) (h : HistogramSeries) : HistogramSeries :=
  {| h_buckets := bump_buckets DEFAULT_BUCKETS (h_buckets h) d;
     h_count := S (h_count h);
     h_sum := (h_sum h + d)%Q |}.

Record Registry : Type := {
  REQUESTS : gmap (string * string * string) nat;
  LATENCY : gmap (string * string) HistogramSeries
}.

Definition empty_registry : Registry := {| REQUESTS := ∅; LATENCY := ∅ |}.

Definition counter_value (reg : Registry) (k : string * string * string) : nat :=
  default 0%nat (REQUESTS reg !! k).

Definition series_of (reg : Registry) (k : string * string) : HistogramSeries :=
  default empty_series (LATENCY reg !! k).

Definition observation_count (reg : Registry) (k : string * string) : nat :=
  h_count (series_of reg k).

Definition incrementRequest (route method code : string) (reg : Registry)
  : Registry :=
  {| REQUESTS := <[(route, method, code) :=
                     S (counter_value reg (route, method, code))]> (REQUESTS reg);
     LATENCY := LATENCY reg |}.

Definition observeLatency (route method : string) (d : Q) (reg : Registry)
  : Registry :=
  {| REQUESTS := REQUESTS reg;
     LATENCY := <[(route, method) :=
                    observe_series d (series_of reg (route, method))]> (LATENCY reg) |}.

(** ** The world and its monad *)

(** What the process shares between requests: the registry, the monotonic
    clock read by [time.perf_counter()], and the lines written to the
    operator log. *)
Record World : Type := {
  registry : Registry;
  clock : Q;
  log_lines : list string
}.

Definition set_registry (reg : Registry) (w : World) : World :=
  {| registry := reg; clock := clock w; log_lines := log_lines w |}.

Definition log_exception (msg : string) (w : World) : World :=
  {| registry := registry w; clock := clock w;
     log_lines := log_lines w ++ [msg] |}.

(** Effectful code: a state change happens even when the call then
    raises, as in Python. *)
Definition M (A : Type) : Type := World → result A * World.

Definition ret {A} (a : A) : M A := λ w, (Ok a, w).

Definition bind {A B} (m : M A) (k : A → M B) : M B :=
  λ w, match m w with
       | (Ok a, w') => k a w'
       | (Raise r, w') => (Raise r, w')
       end.

Definition lift {A} (r : result A) : M A := λ w, (r, w).

Declare Scope py_scope.
Delimit Scope py_scope with py.
Notation "x <- m ;; k" := (bind m (λ x, k))
  (at level 100, m at next level, right associativity) : py_scope.
Notation "m ;; k" := (bind m (λ _, k))
  (at level 100, right associativity) : py_scope.

(** [try: body / except Exception: pass]. *)
Definition try_pass (body : M unit) : M unit :=
  λ w, match body w with
       | (Raise (Exc _), w') => (Ok tt, w')
       | other => other
       end.

(** How the metrics library can fail.  A call either raises the given
    exception and records nothing, or succeeds.  Library code raises
    instances of [Exception]. *)
Record MetricsFaults : Type := {
  observe_fault : string → string → Q → Registry → option exception;
  inc_fault : string → string → string → Registry → option exception
}.

(** The library as it behaves when nothing goes wrong. *)
Definition healthy : MetricsFaults :=
  {| observe_fault := λ _ _ _ _, None; inc_fault := λ _ _ _ _, None |}.

(** [LATENCY.labels(route, method).observe(duration)] *)
Definition LATENCY_observe (lib : MetricsFaults) (route method : string) (d : Q)
  : M unit :=
  λ w, match observe_fault lib route method d (registry w) with
       | Some e => (Raise (Exc e), w)
       | None => (Ok tt, set_registry (observeLatency route method d (registry w)) w)
       end.

(** [REQUESTS.labels(route, method, code).inc()] *)
Definition REQUESTS_inc (lib : MetricsFaults) (route method code : string)
  : M unit :=
  λ w, match inc_fault lib route method code (registry w) with
       | Some e => (Raise (Exc e), w)
       | None => (Ok tt, set_registry (incrementRequest route method code (registry w)) w)
       end.

(** ** The instrumentation middleware, lines 148-182 *)

(** The locals bound before the handler is awaited (lines 157-159). *)
Record Frame : Type := {
  start : Q;
  route_label : string;
  method : string
}.

(** [str(code)] on the local [code], which is unbound ([None]) when
    neither the [try] body nor the [except Exception] clause assigned it. *)
Definition str_code (code : option Z) : result string :=
  match code with
  | Some c => Ok (pretty c)
  | None => Raise (Exc (UnboundLocalError "code"))
  end.

Definition mw_enter (request : Request) : M Frame :=
  λ w, match route_label_from_request request with
       | Ok l => (Ok {| start := clock w; route_label := l;
                        method := req_method request |}, w)
       | Raise r => (Raise r, w)
       end.

(** Lines 161-172: what the [try] / [except Exception] pair makes of the
    handler's outcome.  Returns the local [code] and the pending result
    ([return response], [return JSONResponse(...)], or the exception
    still propagating). *)
Definition settle (outcome : result Response) (w : World)
  : option Z * result Response * World :=
  match outcome with
  | Ok response => (Some (status_code response), Ok response, w)
  | Raise (Exc exc) =>
      let code := HTTP_500_INTERNAL_SERVER_ERROR in
      (Some code,
       Ok (JSONResponse [("detail", "Internal Server Error")] code),
       log_exception "Unhandled exception while processing request" w)
  | Raise r => (None, Raise r, w)
  end.

(** Lines 178-179: the two metric calls inside the inner [try]. *)
Definition record_body (lib : MetricsFaults) (fr : Frame) (code : option Z)
    (duration : Q) : M unit :=
  (LATENCY_observe lib (route_label fr) (method fr) duration ;;
   c <- lift (str_code code) ;;
   REQUESTS_inc lib (route_label fr) (method fr) c)%py.

(** Lines 176-182: the body of the [finally] clause. *)
Definition record_metrics (lib : MetricsFaults) (fr : Frame) (code : option Z)
  : M unit :=
  λ w, let duration := (clock w - start fr)%Q in
       try_pass (record_body lib fr code duration) w.

(** Everything after [await call_next(request)]: the [finally] clause runs
    on every exit path, and an exception escaping it would replace the
    pending result. *)
Definition mw_exit (lib : MetricsFaults) (fr : Frame) (outcome : result Response)
  : M Response :=
  λ w, let '(code, pending, w1) := settle outcome w in
       match record_metrics lib fr code w1 with
       | (Ok _, w2) => (pending, w2)
       | (Raise r, w2) => (Raise r, w2)
       end.

Definition metrics_middleware (lib : MetricsFaults) (request : Request)
    (call_next : Request → M Response) : M Response :=
  λ w, match mw_enter request w with
       | (Ok fr, w0) =>
           let '(outcome, w1) := call_next request w0 in
           mw_exit lib fr outcome w1
       | (Raise r, w0) => (Raise r, w0)
       end.

(** ** Configuration, lines 29-42 *)

Record Settings : Type := {
  APP_NAME : string;
  APP_VERSION : string;
  ALLOWED_HOSTS : string;
  METRICS_ENABLED : bool
}.

Definition default_settings : Settings :=
  {| APP_NAME := "secure-api"; APP_VERSION := "1.0.0";
     ALLOWED_HOSTS := "localhost,127.0.0.1"; METRICS_ENABLED := true |}.

(** ** Strings as Python sees them

    A character is a code point below 256. *)

(** [str.isspace] on one character: TAB..CR, FS..US, space, NEL, NBSP. *)
Definition is_space (c : ascii) : bool :=
  let n := nat_of_ascii c in
  ((9 <=? n) && (n <=? 13) || (28 <=? n) && (n <=? 32)
   || (n =? 133) || (n =? 160))%nat.

Fixpoint lstrip (s : string) : string :=
  match s with
  | String c s' => if is_space c then lstrip s' else s
  | EmptyString => EmptyString
  end.

Fixpoint rstrip (s : string) : string :=
  match s with
  | String c s' =>
      match rstrip s' with
      | EmptyString => if is_space c then EmptyString else String c EmptyString
      | r => String c r
      end
  | EmptyString => EmptyString
  end.

(** [s.strip()] *)
Definition strip (s : string) : string := rstrip (lstrip s).

(** [s.split(sep)] for a one-character separator: never the empty list. *)
Fixpoint split (sep : ascii) (s : string) : list string :=
  match s with
  | EmptyString => [EmptyString]
  | String c s' =>
      if Ascii.eqb c sep then EmptyString :: split sep s'
      else match split sep s' with
           | h :: t => String c h :: t
           | [] => [String c EmptyString]
           end
  end.

(** Truth value of a string: non-empty. *)
Definition truthy (s : string) : bool :=
  match s with EmptyString => false | String _ _ => true end.

(** Line 60:
    [[h.strip() for h in settings.ALLOWED_HOSTS.split(",") if h.strip()]] *)
Definition allowed_hosts (settings : Settings) : list string :=
  omap (λ h, if truthy (strip h) then Some (strip h) else None)
       (split "," (ALLOWED_HOSTS settings)).

(** Line 61: the argument [allowed_hosts or ["*"]] handed to the
    trusted-host filter. *)
Definition trusted_host_patterns (settings : Settings) : list string :=
  match allowed_hosts settings with
  | [] => ["*"]
  | hosts => hosts
  end.

(** *** The trusted-host filter

    Starlette's [TrustedHostMiddleware] is an external library; this is
    its host check: the port is cut off the header, and a host passes
    when the pattern list holds the wildcard, holds the host itself, or
    holds a pattern [*.domain] that the host ends with. *)
Fixpoint ends_with (s suffix : string) : bool :=
  String.eqb s suffix
  || match s with
     | String _ s' => ends_with s' suffix
     | EmptyString => false
     end.

Definition host_matches (host pattern : string) : bool :=
  String.eqb host pattern
  || match pattern with
     | String "*" rest => ends_with host rest
     | _ => false
     end.

Definition host_of_header (header : string) : string :=
  hd EmptyString (split ":" header).

Definition is_valid_host (patterns : list string) (header : string) : bool :=
  bool_decide ("*" ∈ patterns)
  || existsb (host_matches (host_of_header header)) patterns.

(** ** Handlers, lines 100-142 and 188-197 *)

Record Echo : Type := { message : string }.

Definition live (settings : Settings) : json_dict :=
  [("status", "alive"); ("app", APP_NAME settings);
   ("version", APP_VERSION settings)].

Definition ready : json_dict := [("status", "ready")].

Definition health : json_dict := [("status", "ok")].

Definition echo (payload : Echo) : json_dict := [("echo", message payload)].

(** The exposition side of [prometheus_client]: the renderer and the
    content type it goes with.  Both are the library's, and nothing here
    depends on what they are. *)
Record Exposition : Type := {
  generate_latest : Registry → string;
  CONTENT_TYPE_LATEST : string
}.

(** [Response(content=..., media_type=...)]: status 200. *)
Definition RawResponse (content media : string) : Response :=
  {| status_code := 200; body := RawBody content; media_type := media |}.

Definition metrics (settings : Settings) (prom : Exposition) : M Response :=
  λ w, if negb (METRICS_ENABLED settings)
       then (Ok (JSONResponse [("detail", "metrics disabled")] 404), w)
       else (Ok (RawResponse (generate_latest prom (registry w))
                             (CONTENT_TYPE_LATEST prom)), w).

(** The handler the router has selected for a request, with the payload
    the framework validated for it. *)
Inductive Call : Type :=
  | CallLive
  | CallReady
  | CallHealth
  | CallEcho (payload : Echo)
  | CallMetrics.

(** The path template each handler is registered under (the decorators
    of lines 108, 117, 130, 136 and 188). *)
Definition template (c : Call) : string :=
  match c with
  | CallLive => "/live"
  | CallReady => "/ready"
  | CallHealth => "/health"
  | CallEcho _ => "/echo"
  | CallMetrics => "/metrics"
  end.

(** What [call_next] does once the handler is selected.  FastAPI turns a
    returned dict into a 200 JSON response and passes a returned
    [Response] through. *)
Definition handle (settings : Settings) (prom : Exposition) (c : Call)
  : Request → M Response :=
  λ _, match c with
       | CallLive => ret (JSONResponse (live settings) 200)
       | CallReady => ret (JSONResponse ready 200)
       | CallHealth => ret (JSONResponse health 200)
       | CallEcho payload => ret (JSONResponse (echo payload) 200)
       | CallMetrics => metrics settings prom
       end.

(** A request served end to end: the middleware around the handler. *)
Definition serve (settings : Settings) (prom : Exposition) (lib : MetricsFaults)
    (c : Call) (request : Request) : M Response :=
  metrics_middleware lib request (handle settings prom c).

(** ** Concurrent requests on one event loop

    The middleware is a coroutine with a single suspension point,
    [await call_next(request)].  Between two suspension points a
    coroutine runs alone, so a run of the server is an interleaving of
    three kinds of step: a request arrives and its middleware runs up to
    the await; time passes; a suspended middleware is resumed with its
    handler's outcome and runs to the end. *)
Inductive Event : Type :=
  | Arrive (request : Request)
  | Tick (dt : Q)
  | Resume (i : nat) (outcome : result Response).

Record Loop : Type := {
  world : World;
  suspended : list Frame;
  finished : list (result Response)
}.

Definition advance (dt : Q) (w : World) : World :=
  {| registry := registry w; clock := (clock w + dt)%Q;
     log_lines := log_lines w |}.

Definition step (lib : MetricsFaults) (ev : Event) (s : Loop) : option Loop :=
  match ev with
  | Arrive request =>
      match mw_enter request (world s) with
      | (Ok fr, w) =>
          Some {| world := w; suspended := suspended s ++ [fr];
                  finished := finished s |}
      | (Raise r, w) =>
          Some {| world := w; suspended := suspended s;
                  finished := finished s ++ [Raise r] |}
      end
  | Tick dt =>
      Some {| world := advance dt (world s); suspended := suspended s;
              finished := finished s |}
  | Resume i outcome =>
      match suspended s !! i with
      | Some fr =>
          let '(r, w) := mw_exit lib fr outcome (world s) in
          Some {| world := w; suspended := delete i (suspended s);
                  finished := finished s ++ [r] |}
      | None => None
      end
  end.

Fixpoint run (lib : MetricsFaults) (evs : list Event) (s : Loop) : option Loop :=
  match evs with
  | [] => Some s
  | ev :: evs' =>
      match step lib ev s with
      | Some s' => run lib evs' s'
      | None => None
      end
  end.

Definition boot (w : World) : Loop :=
  {| world := w; suspended := []; finished := [] |}.

Fixpoint arrivals (evs : list Event) : nat :=
  match evs with
  | [] => 0
  | Arrive _ :: evs' => S (arrivals evs')
  | _ :: evs' => arrivals evs'
  end.

(** ** The request as the server hands it over

    [request.url] is not stored in the request: Starlette rebuilds it from
    the scheme, the Host header, the path and the query string of the ASGI
    scope, and [request.url.path] splits that string again.  So evaluating
    [request.url.path] can raise (with the header [Host: localhost:[] the
    string is no URL and the split raises [ValueError]), and its value
    need not be the path of the request line (with [Host: localhost:80/x]
    the path of the rebuilt URL starts with [/x]).  What the libraries
    compute is not fixed here: a request carries the outcome of the
    evaluation.  The router writes the matched route under ["route"] in
    the same scope dictionary, and does so inside [call_next]. *)
Module Wire.

Record Inbound : Type := {
  verb : string;                    (* request.method *)
  raw_path : string;                (* scope["path"], what the router matches *)
  entry_scope : gmap string pyobj;  (* the scope when the middleware is entered *)
  url_path_result : result string   (* what request.url.path evaluates to *)
}.

(** [route_label_from_request], lines 85-94: the fallback of the
    [except] clause is itself an evaluation that can raise. *)
Definition route_label_from_request (request : Inbound) : result string :=
  try_except
    (getattr_path (dict_get (entry_scope request) "route"))
    (λ _, url_path_result request).

(** What [await call_next(request)] leaves: the handler's outcome, the
    scope dictionary as dispatch left it, and the world. *)
Record Dispatched : Type := {
  outcome : result Response;
  scope_after : gmap string pyobj;
  world_after : World
}.

(** Lines 157-159.  Line 158 stands before the [try] of line 161. *)
Definition mw_enter (request : Inbound) : M Frame :=
  λ w, match route_label_from_request request with
       | Ok l => (Ok {| start := clock w; route_label := l;
                        method := verb request |}, w)
       | Raise r => (Raise r, w)
       end.

(** Lines 148-182.  The label is a local bound on entry; the scope is not
    read again after dispatch. *)
Definition metrics_middleware (lib : MetricsFaults) (request : Inbound)
    (call_next : Inbound → World → Dispatched) : M Response :=
  λ w, match mw_enter request w with
       | (Ok fr, w0) =>
           let d := call_next request w0 in
           mw_exit lib fr (outcome d) (world_after d)
       | (Raise r, w0) => (Raise r, w0)
       end.

(** The template of the route a scope holds, if it holds one. *)
Definition stored_template (sc : gmap string pyobj) : option string :=
  match sc !! "route" with
  | Some (PyRoute t) => Some t
  | _ => None
  end.

(** The same dispatch, leaving another scope behind. *)
Definition leaving (sc : gmap string pyobj)
    (call_next : Inbound → World → Dispatched) : Inbound → World → Dispatched :=
  λ request w, {| outcome := outcome (call_next request w);
                  scope_after := sc;
                  world_after := world_after (call_next request w) |}.

(** An inbound request whose URL path evaluated to [p], as a [Request]. *)
Definition evaluated (request : Inbound) (p : string) : Request :=
  {| req_method := verb request; url_path := p;
     scope := entry_scope request |}.

End Wire.

(** ** Vocabulary of the properties *)

(** The library raises on no call. *)
Definition fault_free (lib : MetricsFaults) : Prop :=
  (∀ route verb d reg, observe_fault lib route verb d reg = None)
  ∧ (∀ route verb code reg, inc_fault lib route verb code reg = None).

(** [reg'] is [reg] after exactly one increment of the counter series [k]
    and exactly one observation in the histogram series [kh]: each of
    these two series went up by one and no other series moved. *)
Definition one_recording (reg reg' : Registry)
    (k : string * string * string) (kh : string * string) : Prop :=
  (∀ k', counter_value reg' k'
         = (counter_value reg k' + if decide (k' = k) then 1 else 0)%nat)
  ∧ (∀ kh', observation_count reg' kh'
            = (observation_count reg kh' + if decide (kh' = kh) then 1 else 0)%nat).

(** The status code the middleware resolves an outcome to: the response's
    own, 500 for an [Exception], none for an exception that passes
    [except Exception]. *)
Definition resolved_code (outcome : result Response) : option Z :=
  match outcome with
  | Ok response => Some (status_code response)
  | Raise (Exc _) => Some HTTP_500_INTERNAL_SERVER_ERROR
  | Raise _ => None
  end.

(** The result the middleware hands back for an outcome. *)
Definition pending_result (outcome : result Response) : result Response :=
  match outcome with
  | Ok response => Ok response
  | Raise (Exc _) =>
      Ok (JSONResponse [("detail", "Internal Server Error")]
                       HTTP_500_INTERNAL_SERVER_ERROR)
  | Raise r => Raise r
  end.

(** Two configurations that differ at most in [METRICS_ENABLED]. *)
Definition same_but_metrics_enabled (s1 s2 : Settings) : Prop :=
  APP_NAME s1 = APP_NAME s2
  ∧ APP_VERSION s1 = APP_VERSION s2
  ∧ ALLOWED_HOSTS s1 = ALLOWED_HOSTS s2.

Fixpoint only_spaces (s : string) : bool :=
  match s with
  | EmptyString => true
  | String c s' => is_space c && only_spaces s'
  end.

(** Nothing but whitespace and commas (the empty string included). *)
Fixpoint only_spaces_and_commas (s : string) : bool :=
  match s with
  | EmptyString => true
  | String c s' => (is_space c || Ascii.eqb c ",") && only_spaces_and_commas s'
  end.

(** A suspended middleware that will record under label [l] and verb [m]. *)
Definition frame_for (l m : string) (fr : Frame) : Prop :=
  route_label fr = l ∧ method fr = m.

(** Every request of the run resolves to the triple (l, m, str(c)). *)
Definition resolves_to (l m : string) (c : Z) (ev : Event) : Prop :=
  match ev with
  | Arrive request =>
      route_label_from_request request = Ok l ∧ req_method request = m
  | Tick _ => True
  | Resume _ outcome => resolved_code outcome = Some c
  end.

(** ** Sample inputs *)

Definition observe_down : MetricsFaults :=
  {| observe_fault := λ _ _ _ _, Some (OSError "histogram unavailable");
     inc_fault := λ _ _ _ _, None |}.

Definition inc_down : MetricsFaults :=
  {| observe_fault := λ _ _ _ _, None;
     inc_fault := λ _ _ _ _, Some (OSError "counter unavailable") |}.

Definition fresh : World :=
  {| registry := empty_registry; clock := 0; log_lines := [] |}.

Definition get_health : Request :=
  {| req_method := "GET"; url_path := "/health"; scope := ∅ |}.

Definition post_echo : Request :=
  {| req_method := "POST"; url_path := "/echo";
     scope := {[ "route" := PyRoute "/echo" ]} |}.

Definition text_format : Exposition :=
  {| generate_latest := λ _, "";
     CONTENT_TYPE_LATEST := "text/plain; version=0.0.4; charset=utf-8" |}.

(** A handler that answers 200 after 3 ms, and one that fails after 1 ms. *)
Definition answers_ok : Request → M Response :=
  λ _ w, (Ok (JSONResponse health 200), advance 0.003 w).

Definition blows_up : Request → M Response :=
  λ _ w, (Raise (Exc (RuntimeError "boom")), advance 0.001 w).

Definition health_frame : Frame :=
  {| start := 0; route_label := "/health"; method := "GET" |}.

Definition metrics_off : Settings :=
  {| APP_NAME := "secure-api"; APP_VERSION := "1.0.0";
     ALLOWED_HOSTS := "localhost,127.0.0.1"; METRICS_ENABLED := false |}.

Definition blank_hosts : Settings :=
  {| APP_NAME := "secure-api"; APP_VERSION := "1.0.0";
     ALLOWED_HOSTS := " , ,"; METRICS_ENABLED := true |}.

(** A handler whose request is cancelled while it runs. *)
Definition is_cancelled : Request → M Response :=
  λ _ w, (Raise CancelledError, advance 0.001 w).

(** Two requests in flight at once, resumed in the opposite order. *)
Definition two_overlapping : list Event :=
  [Arrive get_health; Arrive get_health; Tick 0.002;
   Resume 1 (Ok (JSONResponse health 200)); Tick 0.001;
   Resume 0 (Ok (JSONResponse health 200))].

(** ** Vocabulary of the further properties *)

(** [c in s] for a character. *)
Fixpoint contains (c : ascii) (s : string) : bool :=
  match s with
  | EmptyString => false
  | String c' s' => Ascii.eqb c' c || contains c s'
  end.

(** [sep.join(parts)] for a one-character separator. *)
Fixpoint join (sep : ascii) (parts : list string) : string :=
  match parts with
  | [] => EmptyString
  | [p] => p
  | p :: rest => p +:+ String sep (join sep rest)
  end.

(** A host name as line 60 leaves it: not empty, trimmed, free of
    commas. *)
Definition clean_host (h : string) : Prop :=
  h ≠ EmptyString ∧ strip h = h ∧ contains "," h = false.

(** What line 60 keeps of one piece of the split: the trimmed piece,
    unless it is empty. *)
Definition keep_host (h : string) : option string :=
  if truthy (strip h) then Some (strip h) else None.

(** [POST /echo] sent with the header [Host: localhost:80/x]: the router
    matches the path [/echo], and the URL Starlette rebuilds is
    [http://localhost:80/x/echo]. *)
Definition echo_via_odd_host : Wire.Inbound :=
  {| Wire.verb := "POST"; Wire.raw_path := "/echo"; Wire.entry_scope := ∅;
     Wire.url_path_result := Ok "/x/echo" |}.

(** The dispatch of such a request: the router stores the echo route in
    the scope and the handler answers after 2 ms. *)
Definition routes_to_echo : Wire.Inbound → World → Wire.Dispatched :=
  λ request w,
    {| Wire.outcome := Ok (JSONResponse (echo {| message := "hi" |}) 200);
       Wire.scope_after :=
         <["route" := PyRoute (template (CallEcho {| message := "hi" |}))]>
           (Wire.entry_scope request);
       Wire.world_after := advance 0.002 w |}.

(** [GET /health] sent with the header [Host: localhost:[]: the rebuilt
    string [http://localhost:[/health] is no URL. *)
Definition health_via_bad_host : Wire.Inbound :=
  {| Wire.verb := "GET"; Wire.raw_path := "/health"; Wire.entry_scope := ∅;
     Wire.url_path_result := Raise (Exc (ValueError "Invalid IPv6 URL")) |}.

(** A scrape request. *)
Definition get_metrics : Request :=
  {| req_method := "GET"; url_path := "/metrics"; scope := ∅ |}.

(** The line [log.exception] writes at line 169. *)
Definition unhandled_line : string :=
  "Unhandled exception while processing request".

(** * Properties *)

(** ** The route label *)

Lemma getattr_path_fails_with_Exception o r :
  getattr_path o = Raise r → ∃ e, r = Exc e.
Proof. destruct o; simpl; intros H; inversion H; eauto. Qed.

Lemma route_label_total request :
  ∃ l, route_label_from_request request = Ok l.
Proof.
  unfold route_label_from_request, try_except.
  destruct (getattr_path _) as [p|r] eqn:E; [eauto|].
  apply getattr_path_fails_with_Exception in E as [e ->]. eauto.
Qed.

Lemma mw_enter_ok request w :
  ∃ fr, mw_enter request w = (Ok fr, w)
        ∧ route_label_from_request request = Ok (route_label fr)
        ∧ method fr = req_method request
        ∧ start fr = clock w.
Proof.
  unfold mw_enter. destruct (route_label_total request) as [l ->].
  eexists; repeat split.
Qed.

(** *** On the wire *)

(** On a request whose URL path evaluates, the two views agree. *)
Lemma wire_label_agrees request p :
  Wire.url_path_result request = Ok p →
  Wire.route_label_from_request request
  = route_label_from_request (Wire.evaluated request p).
Proof.
  intros Hp. unfold Wire.route_label_from_request, route_label_from_request.
  simpl. by rewrite Hp.
Qed.

Lemma wire_middleware_agrees lib request p call_next w :
  Wire.url_path_result request = Ok p →
  Wire.metrics_middleware lib request call_next w
  = metrics_middleware lib (Wire.evaluated request p)
      (λ _ w0, (Wire.outcome (call_next request w0),
                Wire.world_after (call_next request w0))) w.
Proof.
  intros Hp. unfold Wire.metrics_middleware, metrics_middleware,
    Wire.mw_enter, mw_enter.
  rewrite <- (wire_label_agrees request p Hp).
  by destruct (Wire.route_label_from_request request).
Qed.

(** The label derivation gives the stored template when the entry scope
    holds a route, and otherwise whatever [request.url.path] gives, a
    value or an exception. *)
Lemma wire_label_cases request :
  Wire.route_label_from_request request
  = match Wire.stored_template (Wire.entry_scope request) with
    | Some t => Ok t
    | None => Wire.url_path_result request
    end.
Proof.
  unfold Wire.route_label_from_request, Wire.stored_template, dict_get.
  by destruct (Wire.entry_scope request !! "route") as [[| t | x]|].
Qed.

(** When the label derivation raises, the middleware raises the same
    before its [try]: the handler is not called and the world is as it
    was. *)
Lemma wire_middleware_label_raises lib request call_next w r :
  Wire.route_label_from_request request = Raise r →
  Wire.metrics_middleware lib request call_next w = (Raise r, w).
Proof.
  intros H. unfold Wire.metrics_middleware, Wire.mw_enter. by rewrite H.
Qed.

Lemma wire_middleware_label_returns lib request call_next w l :
  Wire.route_label_from_request request = Ok l →
  Wire.metrics_middleware lib request call_next w
  = mw_exit lib {| start := clock w; route_label := l;
                   method := Wire.verb request |}
      (Wire.outcome (call_next request w))
      (Wire.world_after (call_next request w)).
Proof.
  intros H. unfold Wire.metrics_middleware, Wire.mw_enter. by rewrite H.
Qed.

(** C3: what the code does where the claim fails.  The label is fixed on
    entry, before dispatch: whatever route dispatch stores in the scope,
    the middleware behaves the same.  For [POST /echo] sent with
    [Host: localhost:80/x], dispatch matches the route [/echo] and the
    request is answered 200, yet the request is counted under the label
    [/x/echo], the path of the rebuilt URL, which is neither the matched
    template nor the raw path [/echo]; the series of [/echo] stays at
    zero. *)
Theorem label_is_read_before_dispatch :
  (∀ (lib : MetricsFaults) (request : Wire.Inbound)
     (call_next : Wire.Inbound → World → Wire.Dispatched)
     (sc : gmap string pyobj) (w : World),
     Wire.metrics_middleware lib request (Wire.leaving sc call_next) w
     = Wire.metrics_middleware lib request call_next w)
  ∧ Wire.raw_path echo_via_odd_host = "/echo"
  ∧ Wire.stored_template
      (Wire.scope_after (routes_to_echo echo_via_odd_host fresh))
    = Some "/echo"
  ∧ fst (Wire.metrics_middleware healthy echo_via_odd_host routes_to_echo fresh)
    = Ok {| status_code := 200; body := JsonBody [("echo", "hi")];
            media_type := "application/json" |}
  ∧ counter_value
      (registry (snd (Wire.metrics_middleware healthy echo_via_odd_host
                        routes_to_echo fresh)))
      ("/x/echo", "POST", "200") = 1%nat
  ∧ counter_value
      (registry (snd (Wire.metrics_middleware healthy echo_via_odd_host
                        routes_to_echo fresh)))
      ("/echo", "POST", "200") = 0%nat.
Proof.
  split.
  - intros lib request call_next sc w.
    unfold Wire.metrics_middleware, Wire.leaving.
    by destruct (Wire.mw_enter request w) as [[fr|r] w0].
  - repeat split; reflexivity.
Qed.

(** C5: what the code does where the claim fails.  When reading the
    matched route fails, the result is whatever evaluating
    [request.url.path] gives, which can be an exception: for
    [GET /health] sent with [Host: localhost:[] the label derivation
    raises [ValueError], and since line 158 stands before the [try], the
    middleware raises it too, for every handler and metrics library,
    without calling the handler or touching the world. *)
Theorem label_derivation_can_raise :
  (∀ request : Wire.Inbound,
     Wire.route_label_from_request request
     = match getattr_path (dict_get (Wire.entry_scope request) "route") with
       | Ok t => Ok t
       | Raise _ => Wire.url_path_result request
       end)
  ∧ Wire.route_label_from_request health_via_bad_host
    = Raise (Exc (ValueError "Invalid IPv6 URL"))
  ∧ (∀ (lib : MetricsFaults)
       (call_next : Wire.Inbound → World → Wire.Dispatched) (w : World),
       Wire.metrics_middleware lib health_via_bad_host call_next w
       = (Raise (Exc (ValueError "Invalid IPv6 URL")), w)).
Proof.
  split; [|split].
  - intros request. unfold Wire.route_label_from_request, try_except.
    destruct (getattr_path _) as [t|r] eqn:E; [done|].
    by apply getattr_path_fails_with_Exception in E as [e ->].
  - reflexivity.
  - intros lib call_next w. by apply wire_middleware_label_raises.
Qed.

(** ** The scrape handler *)

(** C7.  [/metrics] answers 404 when metrics are disabled; otherwise it
    answers 200 with the rendering of the registry as its body and the
    exposition content type; in both branches it leaves the world, hence
    the registry, as it found it. *)
Theorem metrics_handler_is_a_pure_read :
  ∀ (settings : Settings) (prom : Exposition) (w : World),
    metrics settings prom w
      = (Ok (if METRICS_ENABLED settings
             then {| status_code := 200;
                     body := RawBody (generate_latest prom (registry w));
                     media_type := CONTENT_TYPE_LATEST prom |}
             else {| status_code := 404;
                     body := JsonBody [("detail", "metrics disabled")];
                     media_type := "application/json" |}), w)
    ∧ registry (snd (metrics settings prom w)) = registry w.
Proof.
  intros settings prom w. unfold metrics.
  destruct (METRICS_ENABLED settings); simpl; done.
Qed.

(** ** One recording *)

Lemma healthy_fault_free : fault_free healthy.
Proof. by split. Qed.

Lemma counter_value_increment route verb code reg k :
  counter_value (incrementRequest route verb code reg) k
  = (counter_value reg k + if decide (k = (route, verb, code)) then 1 else 0)%nat.
Proof.
  unfold counter_value at 1, incrementRequest; simpl.
  destruct (decide (k = (route, verb, code))) as [->|Hne].
  - rewrite lookup_insert_eq; simpl. lia.
  - rewrite lookup_insert_ne by done. fold (counter_value reg k). lia.
Qed.

Lemma observation_count_observe route verb d reg kh :
  observation_count (observeLatency route verb d reg) kh
  = (observation_count reg kh + if decide (kh = (route, verb)) then 1 else 0)%nat.
Proof.
  unfold observation_count, series_of at 1, observeLatency; simpl.
  destruct (decide (kh = (route, verb))) as [->|Hne].
  - rewrite lookup_insert_eq; simpl. lia.
  - rewrite lookup_insert_ne by done. fold (series_of reg kh). lia.
Qed.

Lemma counter_value_observe route verb d reg k :
  counter_value (observeLatency route verb d reg) k = counter_value reg k.
Proof. reflexivity. Qed.

Lemma observation_count_increment route verb code reg kh :
  observation_count (incrementRequest route verb code reg) kh
  = observation_count reg kh.
Proof. reflexivity. Qed.

Lemma one_recording_intro route verb code d reg :
  one_recording reg
    (incrementRequest route verb code (observeLatency route verb d reg))
    (route, verb, code) (route, verb).
Proof.
  split; intros x.
  - by rewrite counter_value_increment, counter_value_observe.
  - by rewrite observation_count_increment, observation_count_observe.
Qed.

Lemma settle_registry outcome w :
  settle outcome w
  = (resolved_code outcome, pending_result outcome,
     match outcome with
     | Raise (Exc _) =>
         log_exception "Unhandled exception while processing request" w
     | _ => w
     end).
Proof. by destruct outcome as [r|[e| | |]]. Qed.

(** The [finally] clause never raises. *)
Lemma record_metrics_returns lib fr code w :
  fst (record_metrics lib fr code w) = Ok tt.
Proof.
  unfold record_metrics, try_pass, record_body, bind, lift,
    LATENCY_observe, REQUESTS_inc, str_code.
  destruct (observe_fault lib _ _ _ _); simpl; [done|].
  destruct code; simpl; [|done].
  by destruct (inc_fault lib _ _ _ _).
Qed.

Lemma record_metrics_fault_free lib fr c w :
  fault_free lib →
  record_metrics lib fr (Some c) w
  = (Ok tt,
     set_registry
       (incrementRequest (route_label fr) (method fr) (pretty c)
          (observeLatency (route_label fr) (method fr)
             (clock w - start fr)%Q (registry w))) w).
Proof.
  intros [Ho Hi].
  unfold record_metrics, try_pass, record_body, bind, lift,
    LATENCY_observe, REQUESTS_inc, str_code.
  rewrite Ho; simpl. by rewrite Hi.
Qed.

Lemma record_metrics_observe_fault lib fr code w e :
  observe_fault lib (route_label fr) (method fr) (clock w - start fr)%Q (registry w)
    = Some e →
  record_metrics lib fr code w = (Ok tt, w).
Proof.
  intros H.
  unfold record_metrics, try_pass, record_body, bind, LATENCY_observe.
  by rewrite H.
Qed.

Lemma mw_exit_result lib fr outcome w :
  fst (mw_exit lib fr outcome w) = pending_result outcome.
Proof.
  unfold mw_exit. rewrite settle_registry.
  pose proof (record_metrics_returns lib fr (resolved_code outcome)
    match outcome with
    | Raise (Exc _) =>
        log_exception "Unhandled exception while processing request" w
    | _ => w
    end) as H.
  destruct (record_metrics _ _ _ _) as [[[]|r] w2]; simpl in *; done.
Qed.

Lemma middleware_unfold lib request call_next w :
  ∃ fr, mw_enter request w = (Ok fr, w)
        ∧ route_label_from_request request = Ok (route_label fr)
        ∧ method fr = req_method request
        ∧ start fr = clock w
        ∧ metrics_middleware lib request call_next w
          = mw_exit lib fr (fst (call_next request w)) (snd (call_next request w)).
Proof.
  destruct (mw_enter_ok request w) as (fr & He & Hl & Hm & Hs).
  exists fr. repeat split; try done.
  unfold metrics_middleware. rewrite He.
  by destruct (call_next request w).
Qed.

Lemma middleware_result lib request call_next w :
  fst (metrics_middleware lib request call_next w)
  = pending_result (fst (call_next request w)).
Proof.
  destruct (middleware_unfold lib request call_next w) as (fr & _ & _ & _ & _ & ->).
  apply mw_exit_result.
Qed.

Lemma mw_exit_fault_free lib fr outcome c w :
  fault_free lib → resolved_code outcome = Some c →
  registry (snd (mw_exit lib fr outcome w))
  = incrementRequest (route_label fr) (method fr) (pretty c)
      (observeLatency (route_label fr) (method fr)
         (clock w - start fr)%Q (registry w)).
Proof.
  intros Hlib Hc. unfold mw_exit. rewrite settle_registry, Hc.
  rewrite record_metrics_fault_free by done; simpl.
  by destruct outcome as [r|[e| | |]].
Qed.

(** ** Exactly one recording per request *)

(** The registry a served request leaves behind when the library raises
    on neither call: the one after its handler, plus one observation of
    the elapsed time and one increment. *)
Lemma middleware_registry lib request call_next w c :
  fault_free lib →
  resolved_code (fst (call_next request w)) = Some c →
  ∃ l, route_label_from_request request = Ok l
       ∧ registry (snd (metrics_middleware lib request call_next w))
         = incrementRequest l (req_method request) (pretty c)
             (observeLatency l (req_method request)
                (clock (snd (call_next request w)) - clock w)%Q
                (registry (snd (call_next request w)))).
Proof.
  intros Hlib Hc.
  destruct (middleware_unfold lib request call_next w)
    as (fr & _ & Hl & Hm & Hs & ->).
  exists (route_label fr). split; [done|].
  rewrite (mw_exit_fault_free _ _ _ c) by done.
  by rewrite Hm, Hs.
Qed.

(** C1, as the code has it.  When the handler returns a response or raises
    an [Exception], and the metrics library raises on neither call, the
    middleware records exactly one counter increment, under the request's
    label, verb and resolved status code, and exactly one latency
    observation, under its label and verb; no other series moves. *)
Theorem one_recording_per_request :
  ∀ (lib : MetricsFaults) (request : Request)
    (call_next : Request → M Response) (w : World) (c : Z),
    fault_free lib →
    resolved_code (fst (call_next request w)) = Some c →
    ∃ l, route_label_from_request request = Ok l
         ∧ one_recording
             (registry (snd (call_next request w)))
             (registry (snd (metrics_middleware lib request call_next w)))
             (l, req_method request, pretty c) (l, req_method request).
Proof.
  intros lib request call_next w c Hlib Hc.
  destruct (middleware_registry lib request call_next w c Hlib Hc)
    as (l & Hl & Hreg).
  exists l. split; [exact Hl|].
  rewrite Hreg. apply one_recording_intro.
Qed.

Lemma one_recording_per_request_witness :
  ∃ l, route_label_from_request get_health = Ok l
       ∧ one_recording
           (registry (snd (answers_ok get_health fresh)))
           (registry (snd (metrics_middleware healthy get_health answers_ok fresh)))
           (l, req_method get_health, pretty 200%Z) (l, req_method get_health).
Proof.
  apply (one_recording_per_request healthy get_health answers_ok fresh 200).
  - split; reflexivity.
  - reflexivity.
Defined.

Lemma no_recording_is_not_one reg k kh : ¬ one_recording reg reg k kh.
Proof.
  intros [Hc _]. specialize (Hc k). rewrite decide_True in Hc by done. lia.
Qed.

(** C1 fails as stated: the handler answers 200, the histogram call
    raises, the request is served, and the registry is left as the handler
    left it, so no series, counter or histogram, went up by one. *)
Lemma request_with_no_recording :
  fst (metrics_middleware observe_down get_health answers_ok fresh)
    = Ok (JSONResponse health 200)
  ∧ ¬ ∃ k kh,
        one_recording
          (registry (snd (answers_ok get_health fresh)))
          (registry (snd (metrics_middleware observe_down get_health answers_ok fresh)))
          k kh.
Proof.
  split; [reflexivity|].
  intros (k & kh & H). by apply no_recording_is_not_one in H.
Qed.

(** A request cancelled inside its handler: [except Exception] lets the
    cancellation through, the local [code] is never bound, [str(code)]
    raises inside the guarded block after the histogram call went
    through, and the request leaves one observation and no count. *)
Lemma cancelled_request_half_recorded :
  metrics_middleware healthy get_health is_cancelled fresh
  = (Raise CancelledError,
     set_registry (observeLatency "/health" "GET" (0 + 0.001 - 0)%Q
                     empty_registry)
                  (advance 0.001 fresh)).
Proof. reflexivity. Qed.

(** ** The failure path *)

(** C2, as the code has it.  When the handler raises an [Exception] the
    middleware returns the 500 response with body
    [{"detail": "Internal Server Error"}]; and when the metrics library
    raises on neither call, the counter series with [code="500"] of the
    request's label and verb goes up by exactly one. *)
Theorem handler_exception_yields_500 :
  ∀ (lib : MetricsFaults) (request : Request)
    (call_next : Request → M Response) (w : World) (e : exception),
    fst (call_next request w) = Raise (Exc e) →
    fst (metrics_middleware lib request call_next w)
      = Ok {| status_code := 500;
              body := JsonBody [("detail", "Internal Server Error")];
              media_type := "application/json" |}
    ∧ (fault_free lib →
       ∃ l, route_label_from_request request = Ok l
            ∧ one_recording
                (registry (snd (call_next request w)))
                (registry (snd (metrics_middleware lib request call_next w)))
                (l, req_method request, "500") (l, req_method request)).
Proof.
  intros lib request call_next w e He. split.
  - rewrite middleware_result, He. reflexivity.
  - intros Hlib.
    destruct (middleware_registry lib request call_next w 500 Hlib)
      as (l & Hl & Hreg); [by rewrite He|].
    exists l. split; [exact Hl|].
    rewrite Hreg. apply one_recording_intro.
Qed.

Lemma handler_exception_yields_500_witness :
  fst (metrics_middleware healthy get_health blows_up fresh)
    = Ok {| status_code := 500;
            body := JsonBody [("detail", "Internal Server Error")];
            media_type := "application/json" |}
  ∧ ∃ l, route_label_from_request get_health = Ok l
         ∧ one_recording
             (registry (snd (blows_up get_health fresh)))
             (registry (snd (metrics_middleware healthy get_health blows_up fresh)))
             (l, req_method get_health, "500") (l, req_method get_health).
Proof.
  destruct (handler_exception_yields_500 healthy get_health blows_up fresh
              (RuntimeError "boom")) as [H500 Hcount].
  - reflexivity.
  - split; [exact H500|]. apply Hcount. split; reflexivity.
Defined.

(** C2 fails as stated: the handler raises, the counter call raises too,
    the caller gets the 500 response, and no counter series was
    incremented. *)
Lemma failure_without_counter_increment :
  fst (blows_up get_health fresh) = Raise (Exc (RuntimeError "boom"))
  ∧ fst (metrics_middleware inc_down get_health blows_up fresh)
    = Ok (JSONResponse [("detail", "Internal Server Error")] 500)
  ∧ ∀ k, counter_value
           (registry (snd (metrics_middleware inc_down get_health blows_up fresh))) k
         = 0%nat.
Proof.
  split; [reflexivity|]. split; [reflexivity|].
  intros k. unfold counter_value.
  replace (REQUESTS (registry (snd (metrics_middleware inc_down get_health
                                     blows_up fresh))))
    with (∅ : gmap (string * string * string) nat) by reflexivity.
  by rewrite lookup_empty.
Qed.

(** ** Metric faults *)

Lemma record_body_can_raise :
  fst (record_body observe_down
         {| start := 0; route_label := "/health"; method := "GET" |}
         (Some 200%Z) 0.003 fresh)
  = Raise (Exc (OSError "histogram unavailable")).
Proof. reflexivity. Qed.

(** C4.  Whatever the metrics library does on the two calls, the
    [finally] clause returns normally, and the middleware hands back the
    handler's own response, or the 500 response substituted for an
    [Exception]; an exception that [except Exception] lets through keeps
    propagating as it was. *)
Theorem metric_faults_never_fail_a_request :
  ∀ (lib : MetricsFaults) (request : Request)
    (call_next : Request → M Response) (w : World),
    fst (metrics_middleware lib request call_next w)
      = match fst (call_next request w) with
        | Ok response => Ok response
        | Raise (Exc _) =>
            Ok (JSONResponse [("detail", "Internal Server Error")] 500)
        | Raise r => Raise r
        end
    ∧ (∀ fr code w', fst (record_metrics lib fr code w') = Ok tt).
Proof.
  intros lib request call_next w. split.
  - apply middleware_result.
  - intros fr code w'. apply record_metrics_returns.
Qed.

(** C9.  When the latency observation raises, the guarded block is left at
    once: the world is exactly as before the block, so the counter call
    was not made and no series, counter or histogram, changed; the
    [finally] clause ends normally and nothing is tried again. *)
Theorem observe_fault_skips_the_counter :
  ∀ (lib : MetricsFaults) (fr : Frame) (code : option Z) (w : World)
    (e : exception),
    observe_fault lib (route_label fr) (method fr) (clock w - start fr)%Q
                  (registry w) = Some e →
    LATENCY_observe lib (route_label fr) (method fr) (clock w - start fr)%Q w
      = (Raise (Exc e), w)
    ∧ record_body lib fr code (clock w - start fr)%Q w = (Raise (Exc e), w)
    ∧ record_metrics lib fr code w = (Ok tt, w)
    ∧ (∀ outcome, registry (snd (mw_exit lib fr outcome w)) = registry w).
Proof.
  intros lib fr code w e H.
  assert (Ho : LATENCY_observe lib (route_label fr) (method fr)
                 (clock w - start fr)%Q w = (Raise (Exc e), w)).
  { unfold LATENCY_observe. by rewrite H. }
  split; [exact Ho|]. split.
  { unfold record_body, bind. by rewrite Ho. }
  split; [by eapply record_metrics_observe_fault|].
  intros outcome. unfold mw_exit. rewrite settle_registry.
  destruct outcome as [r|[x| | |]];
    by erewrite record_metrics_observe_fault by exact H.
Qed.

Lemma observe_fault_skips_the_counter_witness :
  LATENCY_observe observe_down (route_label health_frame) (method health_frame)
      (clock fresh - start health_frame)%Q fresh
    = (Raise (Exc (OSError "histogram unavailable")), fresh)
  ∧ record_body observe_down health_frame (Some 200%Z)
      (clock fresh - start health_frame)%Q fresh
    = (Raise (Exc (OSError "histogram unavailable")), fresh)
  ∧ record_metrics observe_down health_frame (Some 200%Z) fresh = (Ok tt, fresh)
  ∧ (∀ outcome, registry (snd (mw_exit observe_down health_frame outcome fresh))
                = registry fresh).
Proof.
  apply (observe_fault_skips_the_counter observe_down health_frame (Some 200%Z)
           fresh (OSError "histogram unavailable")).
  reflexivity.
Defined.

(** A fault in the counter call comes too late for the histogram: the
    observation stays, the counter is not incremented. *)
Lemma inc_fault_leaves_the_observation :
  record_metrics inc_down health_frame (Some 200%Z) fresh
    = (Ok tt, set_registry (observeLatency "/health" "GET" (0 - 0)%Q
                              empty_registry) fresh).
Proof. reflexivity. Qed.

(** ** Configuration does not leak into the probes *)

(** C8.  For a request routed to [/live], [/ready], [/health] or [/echo],
    two configurations that differ only in [METRICS_ENABLED] give the same
    result (status code, body and all) and the same world; and with
    metrics disabled, [/metrics] answers 404 through the middleware. *)
Theorem metrics_flag_only_gates_the_scrape :
  ∀ (s1 s2 : Settings) (prom : Exposition) (lib : MetricsFaults) (c : Call)
    (request : Request) (w : World),
    same_but_metrics_enabled s1 s2 →
    c ≠ CallMetrics →
    serve s1 prom lib c request w = serve s2 prom lib c request w
    ∧ (METRICS_ENABLED s1 = false →
       fst (serve s1 prom lib CallMetrics request w)
       = Ok {| status_code := 404;
               body := JsonBody [("detail", "metrics disabled")];
               media_type := "application/json" |}).
Proof.
  intros s1 s2 prom lib c request w (Hn & Hv & _) Hc. split.
  - unfold serve.
    destruct c; try done; unfold handle, live; by rewrite ?Hn, ?Hv.
  - intros Hoff. unfold serve. rewrite middleware_result.
    unfold handle, metrics. by rewrite Hoff.
Qed.

Lemma metrics_flag_only_gates_the_scrape_witness :
  serve metrics_off text_format healthy (CallEcho {| message := "hi" |})
        post_echo fresh
  = serve default_settings text_format healthy (CallEcho {| message := "hi" |})
          post_echo fresh
  ∧ fst (serve metrics_off text_format healthy CallMetrics post_echo fresh)
    = Ok {| status_code := 404;
            body := JsonBody [("detail", "metrics disabled")];
            media_type := "application/json" |}.
Proof.
  destruct (metrics_flag_only_gates_the_scrape metrics_off default_settings
              text_format healthy (CallEcho {| message := "hi" |})
              post_echo fresh) as [Hsame Hoff].
  - repeat split.
  - discriminate.
  - split; [exact Hsame|]. apply Hoff. reflexivity.
Defined.

(** ** The host allowlist *)

Lemma split_not_nil sep s : split sep s ≠ [].
Proof.
  destruct s as [|c s]; simpl; [done|].
  destruct (Ascii.eqb c sep); [done|]. by destruct (split sep s).
Qed.

Lemma lstrip_head s :
  lstrip s = EmptyString ∧ only_spaces s = true
  ∨ ∃ c r, lstrip s = String c r ∧ is_space c = false ∧ only_spaces s = false.
Proof.
  induction s as [|c s IH]; simpl; [by left|].
  destruct (is_space c) eqn:E; simpl; [exact IH|].
  right. by exists c, s.
Qed.

Lemma rstrip_keeps_head c r : is_space c = false → rstrip (String c r) ≠ EmptyString.
Proof. intros H; simpl. rewrite H. by destruct (rstrip r). Qed.

Lemma strip_empty_iff s : strip s = EmptyString ↔ only_spaces s = true.
Proof.
  unfold strip.
  destruct (lstrip_head s) as [[-> ->]|(c & r & -> & Hc & ->)]; [done|].
  split; [|done]. intros H. by apply rstrip_keeps_head in H.
Qed.

Lemma split_comma_blank s :
  Forall (λ h, only_spaces h = true) (split "," s)
  ↔ only_spaces_and_commas s = true.
Proof.
  induction s as [|c s IH]; simpl.
  - split; [done|]. intros _. by constructor.
  - destruct (Ascii.eqb c ",") eqn:E.
    + rewrite orb_true_r; simpl. rewrite <- IH.
      split; [by inversion 1|]. intros H. by constructor.
    + rewrite orb_false_r. pose proof (split_not_nil "," s) as Hne.
      destruct (split "," s) as [|h t]; [done|].
      rewrite andb_true_iff, <- IH, !Forall_cons; simpl.
      rewrite andb_true_iff. tauto.
Qed.

Lemma allowed_hosts_nil_iff settings :
  allowed_hosts settings = []
  ↔ only_spaces_and_commas (ALLOWED_HOSTS settings) = true.
Proof.
  unfold allowed_hosts. rewrite <- split_comma_blank.
  induction (split "," (ALLOWED_HOSTS settings)) as [|h t IH]; simpl.
  - split; [by constructor|done].
  - rewrite Forall_cons, <- IH, <- strip_empty_iff.
    destruct (strip h) eqn:E; simpl; [tauto|].
    split; [done|]. by intros [? _].
Qed.

(** C10.  When [ALLOWED_HOSTS] parses to the empty list, which is when it
    holds nothing but whitespace and commas, the trusted-host filter is
    given the single pattern ["*"], and every Host header passes it. *)
Theorem empty_allowlist_means_wildcard :
  ∀ settings : Settings,
    allowed_hosts settings = [] →
    only_spaces_and_commas (ALLOWED_HOSTS settings) = true
    ∧ trusted_host_patterns settings = ["*"]
    ∧ (∀ header, is_valid_host (trusted_host_patterns settings) header = true).
Proof.
  intros settings H. split; [by apply allowed_hosts_nil_iff|].
  unfold trusted_host_patterns. rewrite H. split; [done|].
  intros header. reflexivity.
Qed.

Lemma empty_allowlist_means_wildcard_witness :
  only_spaces_and_commas (ALLOWED_HOSTS blank_hosts) = true
  ∧ trusted_host_patterns blank_hosts = ["*"]
  ∧ (∀ header, is_valid_host (trusted_host_patterns blank_hosts) header = true).
Proof. apply (empty_allowlist_means_wildcard blank_hosts). reflexivity. Defined.

(** ** Concurrent requests *)

(** One request alone on the loop is the middleware run from end to end
    around a handler with that outcome. *)
Lemma loop_runs_the_middleware lib request outcome w :
  run lib [Arrive request; Resume 0 outcome] (boot w)
  = Some {| world := snd (metrics_middleware lib request (λ _ w0, (outcome, w0)) w);
            suspended := [];
            finished :=
              [fst (metrics_middleware lib request (λ _ w0, (outcome, w0)) w)] |}.
Proof.
  unfold metrics_middleware; simpl.
  destruct (mw_enter_ok request w) as (fr & -> & _); simpl.
  by destruct (mw_exit lib fr outcome w).
Qed.

Lemma step_count lib l m c ev s s' :
  fault_free lib →
  resolves_to l m c ev →
  Forall (frame_for l m) (suspended s) →
  step lib ev s = Some s' →
  Forall (frame_for l m) (suspended s')
  ∧ (counter_value (registry (world s')) (l, m, pretty c) + length (suspended s')
     = counter_value (registry (world s)) (l, m, pretty c) + length (suspended s)
       + arrivals [ev])%nat
  ∧ (length (finished s') + length (suspended s')
     = length (finished s) + length (suspended s) + arrivals [ev])%nat.
Proof.
  intros Hlib Hev Hfr Hstep. destruct ev as [request|dt|i outcome]; simpl in *.
  - destruct Hev as [Hl Hm].
    destruct (mw_enter_ok request (world s)) as (fr & He & Hl' & Hm' & _).
    rewrite He in Hstep. inversion Hstep; subst; clear Hstep; simpl.
    rewrite Forall_app, Forall_singleton, length_app; simpl.
    split; [|lia]. split; [done|].
    split; [|by rewrite Hm']. rewrite Hl in Hl'. by inversion Hl'.
  - inversion Hstep; subst; clear Hstep; simpl. split; [done|lia].
  - destruct (suspended s !! i) as [fr|] eqn:Ei; [|done].
    pose proof (Forall_lookup_1 _ _ _ _ Hfr Ei) as [Hl Hm].
    pose proof (mw_exit_fault_free lib fr outcome c (world s) Hlib Hev) as Hreg.
    destruct (mw_exit lib fr outcome (world s)) as [r w'] eqn:Ex.
    inversion Hstep; subst; clear Hstep; simpl in *.
    rewrite Hreg, counter_value_increment, counter_value_observe.
    rewrite decide_True by done.
    rewrite length_delete by eauto. rewrite length_app; simpl.
    apply lookup_lt_Some in Ei.
    split; [by apply Forall_delete|]. lia.
Qed.

Lemma run_count lib l m c evs :
  fault_free lib →
  Forall (resolves_to l m c) evs →
  ∀ s s',
    Forall (frame_for l m) (suspended s) →
    run lib evs s = Some s' →
    (counter_value (registry (world s')) (l, m, pretty c) + length (suspended s')
     = counter_value (registry (world s)) (l, m, pretty c) + length (suspended s)
       + arrivals evs)%nat
    ∧ (length (finished s') + length (suspended s')
       = length (finished s) + length (suspended s) + arrivals evs)%nat.
Proof.
  intros Hlib. induction 1 as [|ev evs Hev Hevs IH]; intros s s' Hfr Hrun.
  - inversion Hrun; subst; simpl. lia.
  - simpl in Hrun. destruct (step lib ev s) as [s1|] eqn:Es; [|done].
    destruct (step_count lib l m c ev s s1 Hlib Hev Hfr Es) as (Hfr1 & Hc1 & Hf1).
    destruct (IH s1 s' Hfr1 Hrun) as [Hc Hf].
    assert (arrivals (ev :: evs) = arrivals [ev] + arrivals evs)%nat as ->.
    { by destruct ev. }
    lia.
Qed.

(** C6, as the code has it.  For every interleaving of [N] requests on
    the event loop that all resolve to the same label, verb and status
    code, with a metrics library that raises on no call: once every
    request has completed, all [N] results are in and the counter of that
    triple has grown by exactly [N] (so it reads [N] on a registry where
    it was zero). *)
Theorem no_lost_updates :
  ∀ (lib : MetricsFaults) (evs : list Event) (w : World) (s' : Loop)
    (l m : string) (c : Z),
    fault_free lib →
    Forall (resolves_to l m c) evs →
    run lib evs (boot w) = Some s' →
    suspended s' = [] →
    length (finished s') = arrivals evs
    ∧ counter_value (registry (world s')) (l, m, pretty c)
      = (counter_value (registry w) (l, m, pretty c) + arrivals evs)%nat.
Proof.
  intros lib evs w s' l m c Hlib Hevs Hrun Hdone.
  destruct (run_count lib l m c evs Hlib Hevs (boot w) s') as [Hc Hf];
    [by constructor|done|].
  rewrite Hdone in *; simpl in *. lia.
Qed.

Lemma no_lost_updates_witness :
  length (finished (default (boot fresh) (run healthy two_overlapping (boot fresh))))
    = arrivals two_overlapping
  ∧ counter_value
      (registry (world (default (boot fresh)
                          (run healthy two_overlapping (boot fresh)))))
      ("/health", "GET", pretty 200%Z)
    = (counter_value (registry fresh) ("/health", "GET", pretty 200%Z)
       + arrivals two_overlapping)%nat.
Proof.
  apply (no_lost_updates healthy two_overlapping fresh
           (default (boot fresh) (run healthy two_overlapping (boot fresh)))
           "/health" "GET" 200).
  - split; reflexivity.
  - repeat constructor.
  - reflexivity.
  - reflexivity.
Defined.

(** C6 fails as stated: one request resolving to ("/health", "GET", "200")
    completes, the counter call raises, and the counter of that triple
    reads 0, not 1. *)
Lemma completed_request_not_counted :
  Forall (resolves_to "/health" "GET" 200)
    [Arrive get_health; Resume 0 (Ok (JSONResponse health 200))]
  ∧ arrivals [Arrive get_health; Resume 0 (Ok (JSONResponse health 200))] = 1%nat
  ∧ ∃ s', run inc_down
            [Arrive get_health; Resume 0 (Ok (JSONResponse health 200))]
            (boot fresh) = Some s'
          ∧ suspended s' = []
          ∧ length (finished s') = 1%nat
          ∧ counter_value (registry (world s')) ("/health", "GET", "200") = 0%nat.
Proof.
  split; [repeat constructor|]. split; [done|].
  eexists. split; [reflexivity|]. by repeat split.
Qed.

(** * Further properties *)

(** ** Parsing the allowlist, line 60 *)

Lemma rstrip_idem s : rstrip (rstrip s) = rstrip s.
Proof.
  induction s as [|c s IH]; simpl; [done|].
  destruct (rstrip s) as [|c' r] eqn:E.
  - destruct (is_space c) eqn:Ec; simpl; [done|]. by rewrite Ec.
  - simpl in *. by rewrite IH.
Qed.

Lemma rstrip_head c r :
  is_space c = false → ∃ r', rstrip (String c r) = String c r'.
Proof. intros H; simpl. rewrite H. destruct (rstrip r); eauto. Qed.

Lemma lstrip_fixed c r : is_space c = false → lstrip (String c r) = String c r.
Proof. intros H; simpl. by rewrite H. Qed.

Lemma strip_idem s : strip (strip s) = strip s.
Proof.
  unfold strip.
  destruct (lstrip_head s) as [[-> _]|(c & r & -> & Hc & _)]; [done|].
  destruct (rstrip_head c r Hc) as [r' Hr]. rewrite Hr.
  rewrite lstrip_fixed by done. rewrite <- Hr. apply rstrip_idem.
Qed.

Lemma contains_lstrip c s : contains c s = false → contains c (lstrip s) = false.
Proof.
  induction s as [|c' s IH]; simpl; [done|].
  intros [H1 H2]%orb_false_iff.
  destruct (is_space c'); simpl; [by apply IH|]. by rewrite H1, H2.
Qed.

Lemma contains_rstrip c s : contains c s = false → contains c (rstrip s) = false.
Proof.
  induction s as [|c' s IH]; simpl; [done|].
  intros [H1 H2]%orb_false_iff. specialize (IH H2).
  destruct (rstrip s) as [|c'' r]; simpl in *.
  - destruct (is_space c'); simpl; [done|]. by rewrite H1.
  - by rewrite H1, IH.
Qed.

Lemma contains_strip c s : contains c s = false → contains c (strip s) = false.
Proof. intros H. by apply contains_rstrip, contains_lstrip. Qed.

Lemma split_pieces_free sep s :
  Forall (λ p, contains sep p = false) (split sep s).
Proof.
  induction s as [|c s IH]; simpl; [by repeat constructor|].
  destruct (Ascii.eqb c sep) eqn:E; [by constructor|].
  destruct (split sep s) as [|h t]; [by repeat constructor; simpl; rewrite E|].
  inversion IH; subst. constructor; [|done]. simpl. by rewrite E.
Qed.

Lemma allowed_hosts_elem settings h :
  h ∈ allowed_hosts settings →
  ∃ piece, piece ∈ split "," (ALLOWED_HOSTS settings)
           ∧ strip piece = h ∧ h ≠ EmptyString.
Proof.
  unfold allowed_hosts. rewrite list_elem_of_omap.
  intros (piece & Hin & Hf). exists piece. split; [done|].
  destruct (strip piece) eqn:E; simpl in Hf; [done|].
  by inversion Hf.
Qed.

(** X1.  Every host the allowlist parses to is non-empty, carries no
    leading or trailing whitespace, and holds no comma. *)
Theorem allowed_hosts_are_clean :
  ∀ (settings : Settings) (h : string),
    h ∈ allowed_hosts settings → clean_host h.
Proof.
  intros settings h (piece & Hin & <- & Hne)%allowed_hosts_elem.
  split; [done|]. split; [apply strip_idem|].
  apply contains_strip.
  pose proof (split_pieces_free "," (ALLOWED_HOSTS settings)) as Hfree.
  by apply (proj1 (Forall_forall _ _) Hfree).
Qed.

Lemma allowed_hosts_are_clean_witness : clean_host "127.0.0.1".
Proof.
  apply (allowed_hosts_are_clean default_settings "127.0.0.1").
  apply list_elem_of_In. simpl. auto.
Defined.

Lemma split_free sep p : contains sep p = false → split sep p = [p].
Proof.
  induction p as [|c p IH]; simpl; [done|].
  intros [H1 H2]%orb_false_iff. rewrite H1, IH by done. done.
Qed.

Lemma split_app_sep sep p r :
  contains sep p = false →
  split sep (p +:+ String sep r) = p :: split sep r.
Proof.
  induction p as [|c p IH]; simpl.
  - intros _. by rewrite Ascii.eqb_refl.
  - intros [H1 H2]%orb_false_iff. rewrite H1, IH by done. done.
Qed.

Lemma split_join sep parts :
  parts ≠ [] →
  Forall (λ p, contains sep p = false) parts →
  split sep (join sep parts) = parts.
Proof.
  induction parts as [|p [|q rest] IH]; intros Hne Hfree; [done| |].
  - simpl. apply split_free. by inversion Hfree.
  - inversion Hfree as [|? ? Hp Hrest]; subst.
    change (join sep (p :: q :: rest))
      with (p +:+ String sep (join sep (q :: rest))).
    rewrite split_app_sep by done. by rewrite IH.
Qed.

Lemma omap_clean_hosts parts :
  Forall clean_host parts →
  omap (λ h, if truthy (strip h) then Some (strip h) else None) parts = parts.
Proof.
  induction 1 as [|h parts (Hne & Hs & _) _ IH]; simpl; [done|].
  rewrite Hs. destruct h as [|c h]; [done|].
  change (truthy (String c h)) with true. cbv iota. by f_equal.
Qed.

(** X2.  Writing a list of clean host names joined by commas into
    [ALLOWED_HOSTS] and parsing it gives the list back, in order and with
    its repetitions. *)
Theorem allowed_hosts_of_joined_list :
  ∀ (settings : Settings) (hosts : list string),
    Forall clean_host hosts →
    ALLOWED_HOSTS settings = join "," hosts →
    allowed_hosts settings = hosts.
Proof.
  intros settings hosts Hclean Hcfg. unfold allowed_hosts. rewrite Hcfg.
  destruct hosts as [|h rest]; [done|].
  rewrite split_join; [by apply omap_clean_hosts|done|].
  eapply Forall_impl; [exact Hclean|]. by intros x (_ & _ & ?).
Qed.

Lemma allowed_hosts_of_joined_list_witness :
  allowed_hosts default_settings = ["localhost"; "127.0.0.1"].
Proof.
  apply (allowed_hosts_of_joined_list default_settings
           ["localhost"; "127.0.0.1"]).
  - repeat constructor; done.
  - reflexivity.
Defined.

Lemma only_spaces_app x p :
  only_spaces (x +:+ p) = only_spaces x && only_spaces p.
Proof.
  induction x as [|c x IH]; simpl; [done|]. by rewrite IH, andb_assoc.
Qed.

Lemma rstrip_spaces p : only_spaces p = true → rstrip p = EmptyString.
Proof.
  induction p as [|c p IH]; simpl; [done|].
  intros [Hc Hp]%andb_true_iff. by rewrite IH, Hc.
Qed.

Lemma rstrip_app_spaces y p :
  only_spaces p = true → rstrip (y +:+ p) = rstrip y.
Proof.
  intros Hp. induction y as [|c y IH]; simpl; [by apply rstrip_spaces|].
  by rewrite IH.
Qed.

Lemma lstrip_app x p c r :
  lstrip x = String c r → lstrip (x +:+ p) = String c r +:+ p.
Proof.
  induction x as [|c' x IH]; simpl; [done|].
  destruct (is_space c'); [exact IH|]. by intros [= -> ->].
Qed.

Lemma strip_app_spaces x p :
  only_spaces p = true → strip (x +:+ p) = strip x.
Proof.
  intros Hp. unfold strip.
  destruct (lstrip_head x) as [[Hx Hsp]|(c & r & Hx & _ & _)].
  - rewrite Hx. destruct (lstrip_head (x +:+ p)) as [[-> _]|(c & r & _ & _ & Hn)];
      [done|].
    by rewrite only_spaces_app, Hsp, Hp in Hn.
  - rewrite (lstrip_app x p c r Hx), Hx. by apply rstrip_app_spaces.
Qed.

Lemma strip_cons_space c x : is_space c = true → strip (String c x) = strip x.
Proof. intros H. unfold strip; simpl. by rewrite H. Qed.

Lemma keep_host_spaces p : only_spaces p = true → keep_host p = None.
Proof. intros H%strip_empty_iff. unfold keep_host. by rewrite H. Qed.

Lemma omap_keep_spaces ps :
  Forall (λ p, only_spaces p = true) ps → omap keep_host ps = [].
Proof.
  induction 1 as [|p ps Hp _ IH]; simpl; [done|].
  by rewrite (keep_host_spaces p Hp).
Qed.

Lemma parse_blank_prefix b s :
  only_spaces_and_commas b = true →
  omap keep_host (split "," (b +:+ s)) = omap keep_host (split "," s).
Proof.
  induction b as [|c b IH]; simpl; [done|].
  intros [Hc Hb]%andb_true_iff. specialize (IH Hb).
  destruct (Ascii.eqb c ",") eqn:E; [exact IH|].
  rewrite orb_false_r in Hc.
  pose proof (split_not_nil "," (b +:+ s)) as Hne.
  destruct (split "," (b +:+ s)) as [|h t]; [done|].
  rewrite <- IH. simpl. unfold keep_host at 1 3.
  by rewrite (strip_cons_space c h Hc).
Qed.

Lemma split_blank_suffix (s p0 : string) (ps : list string) :
  ∃ (front : list string) (lst : string),
    split "," s = (front ++ [lst])%list
    ∧ ∀ b, split "," b = p0 :: ps →
           split "," (s +:+ b) = (front ++ (lst +:+ p0) :: ps)%list.
Proof.
  induction s as [|c s (front & lst & Hs & Hb)]; simpl.
  - exists [], EmptyString. split; [done|]. intros b Hsb. exact Hsb.
  - destruct (Ascii.eqb c ",") eqn:E.
    + exists (EmptyString :: front), lst. split; [by rewrite Hs|].
      intros b Hsb. by rewrite (Hb b Hsb).
    + destruct front as [|f0 front].
      * exists [], (String c lst). split; [by rewrite Hs|].
        intros b Hsb. by rewrite (Hb b Hsb).
      * exists (String c f0 :: front), lst. split; [by rewrite Hs|].
        intros b Hsb. by rewrite (Hb b Hsb).
Qed.

Lemma parse_blank_suffix s b :
  only_spaces_and_commas b = true →
  omap keep_host (split "," (s +:+ b)) = omap keep_host (split "," s).
Proof.
  intros Hb. apply split_comma_blank in Hb.
  pose proof (split_not_nil "," b) as Hne.
  destruct (split "," b) as [|p0 ps] eqn:Eb; [done|].
  inversion Hb as [|? ? Hp0 Hps]; subst.
  destruct (split_blank_suffix s p0 ps) as (front & lst & -> & Hsb).
  assert (Hk : keep_host (lst +:+ p0) = keep_host lst).
  { unfold keep_host. by rewrite (strip_app_spaces lst p0 Hp0). }
  rewrite (Hsb b Eb), !omap_app. f_equal.
  change (omap keep_host ((lst +:+ p0) :: ps))
    with (match keep_host (lst +:+ p0) with
          | Some y => y :: omap keep_host ps
          | None => omap keep_host ps
          end).
  by rewrite Hk, (omap_keep_spaces ps Hps).
Qed.

(** X15.  Whitespace and stray commas before and after the list in
    [ALLOWED_HOSTS] do not change the allowlist it parses to. *)
Theorem blank_padding_is_ignored :
  ∀ (s1 s2 : Settings) (b b' : string),
    only_spaces_and_commas b = true →
    only_spaces_and_commas b' = true →
    ALLOWED_HOSTS s2 = b +:+ ALLOWED_HOSTS s1 +:+ b' →
    allowed_hosts s2 = allowed_hosts s1.
Proof.
  intros s1 s2 b b' Hb Hb' Hcfg.
  change (omap keep_host (split "," (ALLOWED_HOSTS s2))
          = omap keep_host (split "," (ALLOWED_HOSTS s1))).
  rewrite Hcfg, parse_blank_prefix by done. by apply parse_blank_suffix.
Qed.

Lemma blank_padding_is_ignored_witness :
  allowed_hosts
    {| APP_NAME := "secure-api"; APP_VERSION := "1.0.0";
       ALLOWED_HOSTS := " , localhost,127.0.0.1, ,"; METRICS_ENABLED := true |}
  = allowed_hosts default_settings.
Proof.
  apply (blank_padding_is_ignored default_settings
           {| APP_NAME := "secure-api"; APP_VERSION := "1.0.0";
              ALLOWED_HOSTS := " , localhost,127.0.0.1, ,";
              METRICS_ENABLED := true |}
           " , " ", ,"); reflexivity.
Defined.

(** ** What the trusted-host filter is given, lines 60-61 *)

Lemma wildcard_in_patterns settings :
  "*" ∈ trusted_host_patterns settings
  ↔ allowed_hosts settings = [] ∨ "*" ∈ allowed_hosts settings.
Proof.
  unfold trusted_host_patterns.
  destruct (allowed_hosts settings) as [|h t].
  - split; [by left|]. intros _. by apply list_elem_of_singleton.
  - split; [by right|]. by intros [?|?].
Qed.

Lemma wildcard_listed settings :
  "*" ∈ allowed_hosts settings
  ↔ ∃ piece, piece ∈ split "," (ALLOWED_HOSTS settings) ∧ strip piece = "*".
Proof.
  split.
  - intros (piece & Hin & Hs & _)%allowed_hosts_elem. eauto.
  - intros (piece & Hin & Hs). unfold allowed_hosts.
    apply list_elem_of_omap. exists piece. split; [done|]. by rewrite Hs.
Qed.

(** X3.  The trusted-host filter is never handed an empty pattern list,
    and the list it is handed holds the wildcard ["*"] exactly when
    [ALLOWED_HOSTS] holds nothing but whitespace and commas or one of its
    comma-separated pieces trims to ["*"]. *)
Theorem wildcard_is_blank_or_listed :
  ∀ settings : Settings,
    trusted_host_patterns settings ≠ []
    ∧ ("*" ∈ trusted_host_patterns settings
       ↔ only_spaces_and_commas (ALLOWED_HOSTS settings) = true
         ∨ ∃ piece, piece ∈ split "," (ALLOWED_HOSTS settings)
                    ∧ strip piece = "*").
Proof.
  intros settings. split.
  - unfold trusted_host_patterns. by destruct (allowed_hosts settings).
  - by rewrite wildcard_in_patterns, allowed_hosts_nil_iff, wildcard_listed.
Qed.

(** ** What the middleware leaves behind, lines 148-182 *)

(** The [finally] clause ends in one of three ways, whatever the library
    does: nothing recorded, the observation alone, or the observation and
    the increment. *)
Lemma record_metrics_cases lib fr code w :
  record_metrics lib fr code w = (Ok tt, w)
  ∨ record_metrics lib fr code w
    = (Ok tt,
       set_registry
         (observeLatency (route_label fr) (method fr) (clock w - start fr)%Q
            (registry w)) w)
  ∨ ∃ c, code = Some c
         ∧ record_metrics lib fr code w
           = (Ok tt,
              set_registry
                (incrementRequest (route_label fr) (method fr) (pretty c)
                   (observeLatency (route_label fr) (method fr)
                      (clock w - start fr)%Q (registry w))) w).
Proof.
  unfold record_metrics, try_pass, record_body, bind, lift,
    LATENCY_observe, REQUESTS_inc, str_code.
  destruct (observe_fault lib _ _ _ _); simpl; [by left|].
  destruct code as [c|]; simpl; [|by right; left].
  destruct (inc_fault lib _ _ _ _); simpl; [by right; left|].
  right; right. by exists c.
Qed.

Lemma record_metrics_keeps_log_and_clock lib fr code w :
  log_lines (snd (record_metrics lib fr code w)) = log_lines w
  ∧ clock (snd (record_metrics lib fr code w)) = clock w.
Proof.
  destruct (record_metrics_cases lib fr code w) as [->|[->|(c & _ & ->)]]; done.
Qed.

Lemma mw_exit_world lib fr outcome w :
  snd (mw_exit lib fr outcome w)
  = snd (record_metrics lib fr (resolved_code outcome)
           match outcome with
           | Raise (Exc _) => log_exception unhandled_line w
           | _ => w
           end).
Proof.
  unfold mw_exit. rewrite settle_registry.
  by destruct (record_metrics _ _ _ _) as [[[]|r] w2].
Qed.

(** X6.  The one line the middleware ever writes to the log is the
    unhandled-exception line, written exactly when the handler raised an
    [Exception]; a failing metric call leaves no trace there. *)
Theorem only_handler_failures_are_logged :
  ∀ (lib : MetricsFaults) (request : Request)
    (call_next : Request → M Response) (w : World),
    log_lines (snd (metrics_middleware lib request call_next w))
    = (log_lines (snd (call_next request w))
       ++ match fst (call_next request w) with
          | Raise (Exc _) => [unhandled_line]
          | _ => []
          end)%list.
Proof.
  intros lib request call_next w.
  destruct (middleware_unfold lib request call_next w)
    as (fr & _ & _ & _ & _ & ->).
  rewrite mw_exit_world.
  destruct (record_metrics_keeps_log_and_clock lib fr
              (resolved_code (fst (call_next request w)))
              match fst (call_next request w) with
              | Raise (Exc _) => log_exception unhandled_line (snd (call_next request w))
              | _ => snd (call_next request w)
              end) as [-> _].
  destruct (fst (call_next request w)) as [r|[e| | |]]; simpl;
    by rewrite ?app_nil_r.
Qed.

Lemma record_metrics_unbound_code lib fr w :
  REQUESTS (registry (snd (record_metrics lib fr None w))) = REQUESTS (registry w).
Proof.
  destruct (record_metrics_cases lib fr None w) as [->|[->|(c & Hc & _)]]; done.
Qed.

(** X7.  An exception of the handler that is not an [Exception]
    (a cancellation, an interrupt) goes through the middleware as it is:
    it is raised again to the caller, no 500 response replaces it, it is
    not logged, and no counter is incremented for the request, whatever
    the metrics library does. *)
Theorem base_exceptions_pass_uncounted :
  ∀ (lib : MetricsFaults) (request : Request)
    (call_next : Request → M Response) (w : World) (r : raised),
    fst (call_next request w) = Raise r →
    (∀ e, r ≠ Exc e) →
    fst (metrics_middleware lib request call_next w) = Raise r
    ∧ REQUESTS (registry (snd (metrics_middleware lib request call_next w)))
      = REQUESTS (registry (snd (call_next request w)))
    ∧ log_lines (snd (metrics_middleware lib request call_next w))
      = log_lines (snd (call_next request w)).
Proof.
  intros lib request call_next w r Hr Hbase.
  assert (Hcode : resolved_code (Raise r : result Response) = None).
  { destruct r as [e| | |]; [by destruct (Hbase e)|done..]. }
  split; [|split].
  - rewrite middleware_result, Hr. destruct r as [e| | |]; [|done..].
    by destruct (Hbase e).
  - destruct (middleware_unfold lib request call_next w)
      as (fr & _ & _ & _ & _ & ->).
    rewrite mw_exit_world, Hr, Hcode.
    destruct r as [e| | |]; [by destruct (Hbase e)|..];
      apply record_metrics_unbound_code.
  - destruct (middleware_unfold lib request call_next w)
      as (fr & _ & _ & _ & _ & ->).
    rewrite mw_exit_world, Hr, Hcode.
    destruct r as [e| | |]; [by destruct (Hbase e)|..];
      apply record_metrics_keeps_log_and_clock.
Qed.

Lemma base_exceptions_pass_uncounted_witness :
  fst (metrics_middleware inc_down get_health is_cancelled fresh)
    = Raise CancelledError
  ∧ REQUESTS (registry (snd (metrics_middleware inc_down get_health
                               is_cancelled fresh)))
    = REQUESTS (registry (snd (is_cancelled get_health fresh)))
  ∧ log_lines (snd (metrics_middleware inc_down get_health is_cancelled fresh))
    = log_lines (snd (is_cancelled get_health fresh)).
Proof.
  apply (base_exceptions_pass_uncounted inc_down get_health is_cancelled fresh
           CancelledError).
  - reflexivity.
  - discriminate.
Defined.

(** X8.  Whatever the metrics library and the handler do, a request
    leaves the registry in one of three states: as its handler left it;
    with one more latency observation under its label and verb; or with
    that observation and one increment of the counter of its label, verb
    and resolved status code.  So a request is never counted twice, and
    never counted without its latency being observed. *)
Theorem recording_is_nothing_latency_or_both :
  ∀ (lib : MetricsFaults) (request : Request)
    (call_next : Request → M Response) (w : World),
    ∃ l, route_label_from_request request = Ok l
         ∧ let reg1 := registry (snd (call_next request w)) in
           let reg' := registry (snd (metrics_middleware lib request call_next w)) in
           let d := (clock (snd (call_next request w)) - clock w)%Q in
           let m := req_method request in
           reg' = reg1
           ∨ reg' = observeLatency l m d reg1
           ∨ ∃ c, resolved_code (fst (call_next request w)) = Some c
                  ∧ reg' = incrementRequest l m (pretty c)
                             (observeLatency l m d reg1).
Proof.
  intros lib request call_next w.
  destruct (middleware_unfold lib request call_next w)
    as (fr & _ & Hl & Hm & Hs & ->).
  exists (route_label fr). split; [done|]. simpl.
  rewrite mw_exit_world, <- Hm, <- Hs.
  set (w1 := match fst (call_next request w) with
             | Raise (Exc _) => log_exception unhandled_line (snd (call_next request w))
             | _ => snd (call_next request w)
             end).
  assert (Hreg : registry w1 = registry (snd (call_next request w))).
  { subst w1. by destruct (fst (call_next request w)) as [r|[e| | |]]. }
  assert (Hclk : clock w1 = clock (snd (call_next request w))).
  { subst w1. by destruct (fst (call_next request w)) as [r|[e| | |]]. }
  rewrite <- Hreg, <- Hclk.
  destruct (record_metrics_cases lib fr
              (resolved_code (fst (call_next request w))) w1)
    as [->|[->|(c & Hc & ->)]]; simpl; [by left|by right; left|].
  right; right. by exists c.
Qed.

(** X10.  Status codes never share a counter series: a request resolved
    to one code leaves the counters of every other code, under any label
    and verb, where they were. *)
Theorem other_status_codes_are_untouched :
  ∀ (lib : MetricsFaults) (request : Request)
    (call_next : Request → M Response) (w : World) (c c' : Z)
    (l' m' : string),
    fault_free lib →
    resolved_code (fst (call_next request w)) = Some c →
    c' ≠ c →
    counter_value (registry (snd (metrics_middleware lib request call_next w)))
                  (l', m', pretty c')
    = counter_value (registry (snd (call_next request w))) (l', m', pretty c').
Proof.
  intros lib request call_next w c c' l' m' Hlib Hc Hne.
  destruct (middleware_registry lib request call_next w c Hlib Hc)
    as (l & _ & ->).
  rewrite counter_value_increment, counter_value_observe.
  rewrite decide_False; [lia|].
  intros [= _ _ E]. by apply (inj pretty) in E.
Qed.

Lemma other_status_codes_are_untouched_witness :
  counter_value (registry (snd (metrics_middleware healthy get_health
                                  blows_up fresh)))
                ("/health", "GET", pretty 200%Z)
  = counter_value (registry (snd (blows_up get_health fresh)))
                  ("/health", "GET", pretty 200%Z).
Proof.
  apply (other_status_codes_are_untouched healthy get_health blows_up fresh
           500 200 "/health" "GET").
  - split; reflexivity.
  - reflexivity.
  - discriminate.
Defined.

(** ** The endpoints behind the middleware *)

(** X12.  A scrape is rendered before it is counted.  An enabled
    [/metrics] answers 200 with, as its body, the rendering of the
    registry as the request found it, so the body does not show the
    scrape itself; the scrape is then counted like any request, under
    code 200, or under 404 when metrics are disabled. *)
Theorem scrape_is_rendered_then_counted :
  ∀ (settings : Settings) (prom : Exposition) (lib : MetricsFaults)
    (request : Request) (w : World),
    fault_free lib →
    ∃ l, route_label_from_request request = Ok l
         ∧ fst (serve settings prom lib CallMetrics request w)
           = Ok (if METRICS_ENABLED settings
                 then {| status_code := 200;
                         body := RawBody (generate_latest prom (registry w));
                         media_type := CONTENT_TYPE_LATEST prom |}
                 else {| status_code := 404;
                         body := JsonBody [("detail", "metrics disabled")];
                         media_type := "application/json" |})
         ∧ counter_value
             (registry (snd (serve settings prom lib CallMetrics request w)))
             (l, req_method request,
              if METRICS_ENABLED settings then "200" else "404")
           = S (counter_value (registry w)
                  (l, req_method request,
                   if METRICS_ENABLED settings then "200" else "404")).
Proof.
  intros settings prom lib request w Hlib. unfold serve.
  assert (Hh : handle settings prom CallMetrics request w
               = (Ok (if METRICS_ENABLED settings
                      then {| status_code := 200;
                              body := RawBody (generate_latest prom (registry w));
                              media_type := CONTENT_TYPE_LATEST prom |}
                      else {| status_code := 404;
                              body := JsonBody [("detail", "metrics disabled")];
                              media_type := "application/json" |}), w)).
  { simpl. unfold metrics. by destruct (METRICS_ENABLED settings). }
  destruct (middleware_registry lib request (handle settings prom CallMetrics) w
              (if METRICS_ENABLED settings then 200 else 404) Hlib)
    as (l & Hl & Hreg).
  { rewrite Hh. by destruct (METRICS_ENABLED settings). }
  exists l. split; [exact Hl|]. split.
  - by rewrite middleware_result, Hh.
  - rewrite Hreg, Hh; simpl.
    rewrite counter_value_increment, counter_value_observe.
    destruct (METRICS_ENABLED settings); rewrite decide_True by done; lia.
Qed.

Lemma scrape_is_rendered_then_counted_witness :
  ∃ l, route_label_from_request get_metrics = Ok l
       ∧ fst (serve default_settings text_format healthy CallMetrics
                get_metrics fresh)
         = Ok (if METRICS_ENABLED default_settings
               then {| status_code := 200;
                       body := RawBody (generate_latest text_format
                                          (registry fresh));
                       media_type := CONTENT_TYPE_LATEST text_format |}
               else {| status_code := 404;
                       body := JsonBody [("detail", "metrics disabled")];
                       media_type := "application/json" |})
       ∧ counter_value
           (registry (snd (serve default_settings text_format healthy
                             CallMetrics get_metrics fresh)))
           (l, req_method get_metrics,
            if METRICS_ENABLED default_settings then "200" else "404")
         = S (counter_value (registry fresh)
                (l, req_method get_metrics,
                 if METRICS_ENABLED default_settings then "200" else "404")).
Proof.
  apply (scrape_is_rendered_then_counted default_settings text_format healthy
           get_metrics fresh).
  split; reflexivity.
Defined.

(** ** Runs of the event loop *)

Lemma mw_exit_counter_bounds lib fr outcome w k :
  (counter_value (registry w) k
   ≤ counter_value (registry (snd (mw_exit lib fr outcome w))) k
   ≤ S (counter_value (registry w) k))%nat.
Proof.
  rewrite mw_exit_world.
  set (w1 := match outcome with
             | Raise (Exc _) => log_exception unhandled_line w
             | _ => w
             end).
  assert (registry w = registry w1) as ->.
  { subst w1. by destruct outcome as [r|[e| | |]]. }
  destruct (record_metrics_cases lib fr (resolved_code outcome) w1)
    as [->|[->|(c & _ & ->)]]; simpl;
    rewrite ?counter_value_increment, ?counter_value_observe;
    try case_decide; lia.
Qed.

Lemma step_accounts lib ev s s' k :
  step lib ev s = Some s' →
  (length (finished s') + length (suspended s')
   = length (finished s) + length (suspended s) + arrivals [ev])%nat
  ∧ (Forall (λ r, ∀ e, r ≠ Raise (Exc e)) (finished s) →
     Forall (λ r, ∀ e, r ≠ Raise (Exc e)) (finished s'))
  ∧ (counter_value (registry (world s)) k
     ≤ counter_value (registry (world s')) k
     ≤ counter_value (registry (world s)) k
       + (length (finished s') - length (finished s)))%nat.
Proof.
  intros Hstep. destruct ev as [request|dt|i outcome]; simpl in *.
  - destruct (mw_enter_ok request (world s)) as (fr & He & _).
    rewrite He in Hstep. inversion Hstep; subst; clear Hstep; simpl.
    rewrite length_app; simpl. split; [lia|]. split; [done|lia].
  - inversion Hstep; subst; clear Hstep; simpl. split; [lia|]. split; [done|lia].
  - destruct (suspended s !! i) as [fr|] eqn:Ei; [|done].
    pose proof (mw_exit_result lib fr outcome (world s)) as Hres.
    pose proof (mw_exit_counter_bounds lib fr outcome (world s) k) as Hb.
    destruct (mw_exit lib fr outcome (world s)) as [r w'] eqn:Ex.
    inversion Hstep; subst; clear Hstep; simpl in *.
    rewrite length_delete by eauto. rewrite length_app; simpl.
    apply lookup_lt_Some in Ei. split; [lia|]. split; [|lia].
    intros Hfin. apply Forall_app. split; [done|].
    apply Forall_singleton. intros e ->.
    by destruct outcome as [?|[?| | |]].
Qed.

Lemma run_accounts lib evs k :
  ∀ s s',
    run lib evs s = Some s' →
    (length (finished s') + length (suspended s')
     = length (finished s) + length (suspended s) + arrivals evs)%nat
    ∧ (Forall (λ r, ∀ e, r ≠ Raise (Exc e)) (finished s) →
       Forall (λ r, ∀ e, r ≠ Raise (Exc e)) (finished s'))
    ∧ (length (finished s) ≤ length (finished s'))%nat
    ∧ (counter_value (registry (world s)) k
       ≤ counter_value (registry (world s')) k
       ≤ counter_value (registry (world s)) k
         + (length (finished s') - length (finished s)))%nat.
Proof.
  induction evs as [|ev evs IH]; intros s s' Hrun.
  - inversion Hrun; subst; simpl. split; [lia|]. split; [done|]. lia.
  - simpl in Hrun. destruct (step lib ev s) as [s1|] eqn:Es; [|done].
    destruct (step_accounts lib ev s s1 k Es) as (Hn1 & Hf1 & Hc1).
    destruct (IH s1 s' Hrun) as (Hn & Hf & Hl & Hc).
    assert (length (finished s) ≤ length (finished s1))%nat.
    { destruct ev as [request|dt|i outcome]; simpl in Es.
      - destruct (mw_enter request (world s)) as [[fr|r] w0];
          inversion Es; subst; simpl; rewrite ?length_app; lia.
      - inversion Es; subst; simpl; lia.
      - destruct (suspended s !! i) as [fr|]; [|done].
        destruct (mw_exit lib fr outcome (world s)).
        inversion Es; subst; simpl. rewrite length_app. lia. }
    assert (arrivals (ev :: evs) = arrivals [ev] + arrivals evs)%nat as ->.
    { by destruct ev. }
    split; [lia|]. split; [by intros ?; apply Hf, Hf1|]. lia.
Qed.

(** X13.  An [Exception] escapes the middleware exactly when the label
    derivation of line 158 raises it: that line stands before the [try],
    so the exception leaves the middleware with the handler not called
    and the world as it was; every [Exception] raised later, by the
    handler or by a metric call, is caught. *)
Theorem only_the_label_derivation_escapes :
  ∀ (lib : MetricsFaults) (request : Wire.Inbound)
    (call_next : Wire.Inbound → World → Wire.Dispatched) (w : World)
    (e : exception),
    fst (Wire.metrics_middleware lib request call_next w) = Raise (Exc e)
    ↔ Wire.route_label_from_request request = Raise (Exc e)
      ∧ Wire.metrics_middleware lib request call_next w = (Raise (Exc e), w).
Proof.
  intros lib request call_next w e.
  destruct (Wire.route_label_from_request request) as [l|r] eqn:El.
  - rewrite (wire_middleware_label_returns lib request call_next w l El).
    rewrite mw_exit_result. split; [|by intros [? _]].
    by destruct (Wire.outcome (call_next request w)) as [?|[?| | |]].
  - rewrite (wire_middleware_label_raises lib request call_next w r El); simpl.
    split; [by intros [= ->]|by intros [[= ->] _]].
Qed.

Lemma only_the_label_derivation_escapes_witness :
  Wire.route_label_from_request health_via_bad_host
    = Raise (Exc (ValueError "Invalid IPv6 URL"))
  ∧ Wire.metrics_middleware inc_down health_via_bad_host routes_to_echo fresh
    = (Raise (Exc (ValueError "Invalid IPv6 URL")), fresh).
Proof.
  apply (only_the_label_derivation_escapes inc_down health_via_bad_host
           routes_to_echo fresh (ValueError "Invalid IPv6 URL")).
  reflexivity.
Defined.

(** X14.  In every run of the event loop, whatever the metrics library
    does, no counter ever goes down, and no counter grows by more than
    the number of requests that finished: faults can lose counts, never
    invent them. *)
Theorem counters_never_overcount :
  ∀ (lib : MetricsFaults) (evs : list Event) (w : World) (s' : Loop)
    (k : string * string * string),
    run lib evs (boot w) = Some s' →
    (counter_value (registry w) k
     ≤ counter_value (registry (world s')) k
     ≤ counter_value (registry w) k + length (finished s'))%nat.
Proof.
  intros lib evs w s' k Hrun.
  destruct (run_accounts lib evs k (boot w) s' Hrun) as (_ & _ & _ & Hc).
  simpl in Hc. lia.
Qed.

Lemma counters_never_overcount_witness :
  (counter_value (registry fresh) ("/health", "GET", "200")
   ≤ counter_value
       (registry (world (default (boot fresh)
                           (run healthy two_overlapping (boot fresh)))))
       ("/health", "GET", "200")
   ≤ counter_value (registry fresh) ("/health", "GET", "200")
     + length (finished (default (boot fresh)
                           (run healthy two_overlapping (boot fresh)))))%nat.
Proof.
  apply (counters_never_overcount healthy two_overlapping fresh
           (default (boot fresh) (run healthy two_overlapping (boot fresh)))).
  reflexivity.
Defined.
